(** * Key Transparency client core: response verifier, mutation builder,
      history listing, update retry loop and monitor loop.

Shallow embedding of
  - core/client/kt/verify.go        (package kt,    [Module kt])
  - core/client/grpcc (client)      (package grpcc, [Module grpcc])
  - core/mutator/entry/mutation.go  (package entry, [Module entry])
  - core/monitor/monitor.go         (package monitor, [Module monitor])

Go values are modelled as follows.
  - [[]byte] is [list Byte.byte]; a nil slice and an empty slice are
    both [[]] (the code only compares them with [bytes.Equal] and
    [len], which do not tell them apart).
  - [int64]/[int32]/[int] are [Z]; wrap-around is written out with
    [int64]/[int32] where the code does arithmetic.
  - a pointer to a message is [option _]: [None] is [nil].  Getters
    ([GetX]) are nil-safe as in the generated protobuf code.
  - pointers whose identity or pointee matters ([*SignedLogRoot],
    [*SignedMapRoot]) are locations into an explicit memory [Mem].
  - a Go function returning [error] is a computation with an
    [outcome unit]; [(T, error)] is [outcome T]; a nil-pointer
    dereference is [Panics].
  - collaborators that live outside these files (Trillian verifiers,
    commitments, VRF, object hash, RPC stubs, storage) are Section
    variables: every theorem holds for all of them. *)

From Stdlib Require Import ZArith Lia List String.
From stdpp Require Import base option gmap list strings.

Local Open Scope string_scope.
Local Open Scope Z_scope.
Local Open Scope list_scope.

(** ** Machine integers *)

Definition wrap (w : Z) (x : Z) : Z :=
  (x + 2 ^ (w - 1)) mod 2 ^ w - 2 ^ (w - 1).
Definition int64 (x : Z) : Z := wrap 64 x.
Definition int32 (x : Z) : Z := wrap 32 x.
Definition in_int64 (x : Z) : Prop := - 2 ^ 63 <= x < 2 ^ 63.

(** ** Byte strings *)

Abbreviation bytes := (list Byte.byte).

#[global] Instance byte_eq_dec : EqDecision Byte.byte := Byte.byte_eq_dec.

(** [bytes.Equal] *)
Definition bytes_Equal (a b : bytes) : bool := bool_decide (a = b).

(** ** Errors

Go compares errors by identity ([err == ErrRetry]).  The sentinel
errors of the packages are constructors; [fmt.Errorf] allocates a new
error value, distinct from every sentinel; errors returned by
collaborators are [ErrExternal]. *)

Inductive error : Type :=
| ErrNilProof                                   (* kt.ErrNilProof *)
| ErrRetry                                      (* grpcc.ErrRetry *)
| ErrIncomplete                                 (* grpcc.ErrIncomplete *)
| ErrMissingKey                                 (* mutator.ErrMissingKey *)
| ErrExternal (tag : string)
| Errorf (format : string)                      (* fmt.Errorf without a cause *)
| ErrorfW (format : string) (cause : error).    (* fmt.Errorf("...: %v", err) *)

Fixpoint error_eqb (a b : error) : bool :=
  match a, b with
  | ErrNilProof, ErrNilProof => true
  | ErrRetry, ErrRetry => true
  | ErrIncomplete, ErrIncomplete => true
  | ErrMissingKey, ErrMissingKey => true
  | ErrExternal s, ErrExternal t => bool_decide (s = t)
  | Errorf f, Errorf g => bool_decide (f = g)
  | ErrorfW f c, ErrorfW g d => bool_decide (f = g) && error_eqb c d
  | _, _ => false
  end.


(** ** Outcomes and the state-and-error monad *)

Inductive outcome (A : Type) : Type :=
| Done (a : A)          (* normal return, [err == nil] *)
| Fail (e : error)      (* return with [err != nil] *)
| Panics.               (* run-time panic (nil dereference) *)
Arguments Done {A} a.
Arguments Fail {A} e.
Arguments Panics {A}.

(** What a collaborator with a Go signature [(T, error)] hands back. *)
Inductive result (A : Type) : Type :=
| Ok (a : A)
| Err (e : error).
Arguments Ok {A} a.
Arguments Err {A} e.

Definition of_result {A} (r : result A) : outcome A :=
  match r with Ok a => Done a | Err e => Fail e end.
Coercion of_result : result >-> outcome.

(** The [error] a caller sees: [None] is [nil]. *)
Definition err_of {A} (o : outcome A) : option error :=
  match o with Fail e => Some e | _ => None end.

Definition is_Done {A} (o : outcome A) : bool :=
  match o with Done _ => true | _ => false end.
Definition is_Fail {A} (o : outcome A) : bool :=
  match o with Fail _ => true | _ => false end.

Definition M (S A : Type) : Type := S -> S * outcome A.

Definition ret {S A} (a : A) : M S A := fun s => (s, Done a).
Definition fail {S A} (e : error) : M S A := fun s => (s, Fail e).
Definition panic {S A} : M S A := fun s => (s, Panics).
Definition bind {S A B} (m : M S A) (k : A -> M S B) : M S B :=
  fun s =>
    match m s with
    | (s', Done a) => k a s'
    | (s', Fail e) => (s', Fail e)
    | (s', Panics) => (s', Panics)
    end.
Definition lift {S A} (o : outcome A) : M S A := fun s => (s, o).
Definition gets {S A} (f : S -> A) : M S A := fun s => (s, Done (f s)).
Definition modify {S} (f : S -> S) : M S unit := fun s => (f s, Done tt).

(** [if err := f(); err != nil { return fmt.Errorf(format, err) }] *)
Definition check {S} (format : string) (r : option error) : M S unit :=
  match r with
  | None => ret tt
  | Some e => fail (ErrorfW format e)
  end.

(** [x, err := f(); if err != nil { return fmt.Errorf(format, err) }] *)
Definition wrapped {A} (format : string) (o : outcome A) : outcome A :=
  match o with
  | Fail e => Fail (ErrorfW format e)
  | o => o
  end.

Notation "x <- m ;; k" := (bind m (fun x => k))
  (at level 100, m at next level, right associativity).
Notation "m ;;; k" := (bind m (fun _ => k))
  (at level 100, right associativity).

(** ** Messages (package keytransparency_proto, trillian, keyspb, sigpb) *)

Record DigitallySigned := { Signature : bytes }.
Record PublicKey := { Der : bytes }.

Record Entry := {
  Index : bytes;
  Commitment : bytes;
  AuthorizedKeys : list PublicKey;
  Previous : bytes;
  Signatures : gmap string DigitallySigned
}.

Record Committed := { Key : bytes; Data : bytes }.

Record SignedLogRoot := {
  LogId : Z;
  TreeSize : Z;
  LogRootHash : bytes;
  LogTimestampNanos : Z;
  LogSignature : option DigitallySigned
}.

Record SignedMapRoot := {
  MapId : Z;
  MapRevision : Z;
  RootHash : bytes;
  TimestampNanos : Z;
  Metadata : bytes;
  SmrSignature : option DigitallySigned
}.

Record MapLeaf := { LeafIndex : bytes; LeafValue : bytes }.
Record MapLeafInclusion := { Leaf : option MapLeaf; Inclusion : list bytes }.

(** Locations of heap-allocated roots. *)
Abbreviation loc := positive.

(** [GetEntryResponse] as it sits in memory: [Smr] and [LogRoot] are
    pointers. *)
Record GetEntryResponse := {
  VrfProof : bytes;
  GetCommitted : option Committed;
  LeafProof : option MapLeafInclusion;
  Smr : option loc;
  LogRoot : option loc;
  LogConsistency : list bytes;
  LogInclusion : list bytes
}.

(** Nil-safe getters. *)
Definition GetLeafValue (lp : option MapLeafInclusion) : bytes :=
  match lp with
  | Some p => match Leaf p with Some l => LeafValue l | None => [] end
  | None => []
  end.
Definition GetInclusion (lp : option MapLeafInclusion) : list bytes :=
  match lp with Some p => Inclusion p | None => [] end.
Definition GetCommitment (e : option Entry) : bytes :=
  match e with Some e => Commitment e | None => [] end.
Definition GetAuthorizedKeys (e : option Entry) : list PublicKey :=
  match e with Some e => AuthorizedKeys e | None => [] end.
Definition GetData (c : option Committed) : bytes :=
  match c with Some c => Data c | None => [] end.
Definition GetKey (c : option Committed) : bytes :=
  match c with Some c => Key c | None => [] end.
Definition GetRootHash (s : option SignedMapRoot) : bytes :=
  match s with Some s => RootHash s | None => [] end.
Definition GetMapId (s : option SignedMapRoot) : Z :=
  match s with Some s => MapId s | None => 0 end.
Definition GetMapRevision (s : option SignedMapRoot) : Z :=
  match s with Some s => MapRevision s | None => 0 end.
Definition GetSignature (s : option SignedMapRoot) : option DigitallySigned :=
  match s with Some s => SmrSignature s | None => None end.
Definition GetTreeSize (r : option SignedLogRoot) : Z :=
  match r with Some r => TreeSize r | None => 0 end.

(** ** Memory: the objects reachable through pointers *)

Record Mem := {
  logRoots : gmap loc SignedLogRoot;
  mapRoots : gmap loc SignedMapRoot;
  nextLoc : loc
}.

(** What a [*SignedLogRoot] points to ([None] for [nil]). *)
Definition logRootAt (m : Mem) (p : option loc) : option SignedLogRoot :=
  p ≫= (fun l => logRoots m !! l).
Definition mapRootAt (m : Mem) (p : option loc) : option SignedMapRoot :=
  p ≫= (fun l => mapRoots m !! l).

(** [smr.Signature = nil] on a local copy. *)
Definition clearSignature (s : SignedMapRoot) : SignedMapRoot :=
  {| MapId := MapId s; MapRevision := MapRevision s; RootHash := RootHash s;
     TimestampNanos := TimestampNanos s; Metadata := Metadata s;
     SmrSignature := None |}.

(** * Package entry: the mutation builder (core/mutator/entry/mutation.go) *)

Module entry.

(** [signatures.Signer]: an interface value carries its own methods. *)
Record Signer := {
  KeyID : string;
  Sign : Entry -> result DigitallySigned
}.

(** Functions of package entry, objecthash and commitments that
    mutation.go calls and that are defined in other files. *)
Class Deps := {
  JSON : Type;
  nilHash : bytes;                         (* objecthash.ObjectHash(nil) *)
  FromLeafValue : bytes -> result (option Entry);
  objecthash_CommonJSONify : option Entry -> result JSON;
  objecthash_ObjectHash : JSON -> result bytes;
  verifyKeys :
    list PublicKey -> list PublicKey -> Entry ->
    gmap string DigitallySigned -> option error;
  Mutate : option Entry -> Entry -> result Entry    (* New().Mutate *)
}.

Record Mutation := {
  DomainID : string;
  AppID : string;
  UserID : string;
  data : bytes;
  nonce : bytes;
  prevEntry : option Entry;
  entry : Entry
}.

Record EntryUpdate := {
  EntryMutation : Entry;
  EntryCommitted : Committed
}.

Record UpdateEntryRequest := {
  ReqDomainId : string;
  ReqUserId : string;
  ReqAppId : string;
  FirstTreeSize : Z;
  GetEntryUpdate : EntryUpdate
}.

Definition setAuthorizedKeys (ks : list PublicKey) (e : Entry) : Entry :=
  {| Index := Index e; Commitment := Commitment e;
     AuthorizedKeys := ks; Previous := Previous e;
     Signatures := Signatures e |}.
Definition setSignatures (sg : gmap string DigitallySigned) (e : Entry)
  : Entry :=
  {| Index := Index e; Commitment := Commitment e;
     AuthorizedKeys := AuthorizedKeys e; Previous := Previous e;
     Signatures := sg |}.
Definition withEntry (f : Entry -> Entry) (m : Mutation) : Mutation :=
  {| DomainID := DomainID m; AppID := AppID m; UserID := UserID m;
     data := data m; nonce := nonce m; prevEntry := prevEntry m;
     entry := f (entry m) |}.

Section Builder.
  Context {D : Deps}.

Definition NewMutation (index : bytes) (domainID appID userID : string)
  : Mutation :=
  {| DomainID := domainID; AppID := appID; UserID := userID;
     data := []; nonce := []; prevEntry := None;
     entry := {| Index := index; Commitment := [];
                 AuthorizedKeys := []; Previous := nilHash;
                 Signatures := ∅ |} |}.


(** [len(pubkeys) < 1] *)
Definition ReplaceAuthorizedKeys (pubkeys : list PublicKey)
  : M Mutation unit :=
  if (Z.of_nat (length pubkeys) <? 1)%Z then fail ErrMissingKey
  else modify (withEntry (setAuthorizedKeys pubkeys)).

(** The loop of [sign]: [sigs[signer.KeyID()] = sig] for each signer in
    order, stopping at the first signer that fails. *)
Fixpoint signLoop (e : Entry) (signers : list Signer)
    (sigs : gmap string DigitallySigned)
  : result (gmap string DigitallySigned) :=
  match signers with
  | [] => Ok sigs
  | signer :: rest =>
      match Sign signer e with
      | Ok sig => signLoop e rest (<[KeyID signer := sig]> sigs)
      | Err err => Err err
      end
  end.

Definition sign (signers : list Signer) : M Mutation Entry :=
  modify (withEntry (setSignatures ∅)) ;;;
  e <- gets entry ;;
  sigs <- lift (signLoop e signers ∅) ;;
  modify (withEntry (setSignatures sigs)) ;;;
  gets entry.

Definition SerializeAndSign (signers : list Signer) (trustedTreeSize : Z)
  : M Mutation UpdateEntryRequest :=
  mutation <- sign signers ;;
  let skv := setSignatures ∅ mutation in
  prev <- gets prevEntry ;;
  cur <- gets entry ;;
  check "verifyKeys(prevauth: %v, newauth: %v, sig: %v): %v"
    (verifyKeys (GetAuthorizedKeys prev) (AuthorizedKeys cur) skv
       (Signatures mutation)) ;;;
  lift (wrapped "presign mutation check: %v" (Mutate prev mutation)) ;;;
  m <- gets id ;;
  ret {| ReqDomainId := DomainID m;
         ReqUserId := UserID m;
         ReqAppId := AppID m;
         FirstTreeSize := trustedTreeSize;
         GetEntryUpdate :=
           {| EntryMutation := mutation;
              EntryCommitted := {| Key := nonce m; Data := data m |} |} |}.
End Builder.
End entry.

(** * Package kt: the response verifier (core/client/kt/verify.go) *)

Module kt.

(** [client.LogVerifier] (Trillian).  Both methods read the roots they
    are handed and report an error or nil. *)
Record LogVerifier := {
  VerifyRoot :
    option SignedLogRoot -> option SignedLogRoot -> list bytes ->
    option error;
  VerifyInclusionAtIndex :
    option SignedLogRoot -> bytes -> Z -> list bytes -> option error
}.

(** Key material, and the functions of other packages and files that
    verify.go calls. *)
Class Deps := {
  entryDeps : entry.Deps;
  VrfKey : Type;
  MapHasher : Type;
  PubKey : Type;
  commitments_Verify :
    string -> string -> bytes -> bytes -> bytes -> option error;
  Index_ : VrfKey -> bytes -> string -> string -> string -> result bytes;
  merkle_VerifyMapInclusionProof :
    Z -> bytes -> bytes -> bytes -> list bytes -> MapHasher -> option error;
  tcrypto_VerifyObject :
    PubKey -> SignedMapRoot -> option DigitallySigned -> option error;
  json_Marshal : SignedMapRoot -> result bytes
}.
#[global] Existing Instance entryDeps.

Section Verifier.
  Context {D : Deps}.

Record Verifier := New {
  vrf : VrfKey;
  hasher : MapHasher;
  mapPubKey : PubKey;
  logVerifier : LogVerifier
}.

(** [v.Index] (defined in another file of the package). *)
Definition Index (v : Verifier) (vrfProof : bytes)
    (domainID appID userID : string) : result bytes :=
  Index_ (vrf v) vrfProof domainID appID userID.

(** [*p] for a [*SignedMapRoot]: panics on [nil]. *)
Definition derefSmr (p : option loc) : M Mem SignedMapRoot :=
  fun m => match mapRootAt m p with
           | Some s => (m, Done s)
           | None => (m, Panics)
           end.

(** The commitment step (lines 83-93). *)
Definition verifyCommitment (userID appID : string) (e : option Entry)
    (inp : GetEntryResponse) : M Mem unit :=
  match GetCommitted inp with
  | Some c =>
      let commitment := GetCommitment e in
      let data := Data c in
      let nonce := Key c in
      check "commitments.Verify(%v, %v, %v, %v, %v): %v"
            (commitments_Verify userID appID commitment data nonce)
  | None => ret tt
  end.

(** Lines 96-149: VRF, sparse Merkle proof, SMR signature, log
    consistency and log inclusion.  [trusted] is the pointer
    parameter: a local variable holding the address of the caller's
    root. *)
Definition verifyProofs (v : Verifier) (domainID appID userID : string)
    (trusted : option loc) (inp : GetEntryResponse) : M Mem unit :=
  index <- lift (Index v (VrfProof inp) domainID appID userID) ;;
  match LeafProof inp with
  | None => fail ErrNilProof
  | Some leafProof =>
      let leaf := GetLeafValue (Some leafProof) in
      let proof := Inclusion leafProof in
      expectedRoot <- gets (fun m => GetRootHash (mapRootAt m (Smr inp))) ;;
      mapID <- gets (fun m => GetMapId (mapRootAt m (Smr inp))) ;;
      check "VerifyMapInclusionProof(): %v"
        (merkle_VerifyMapInclusionProof mapID index leaf expectedRoot
           proof (hasher v)) ;;;
      smr0 <- derefSmr (Smr inp) ;;
      let smr := clearSignature smr0 in
      sig <- gets (fun m => GetSignature (mapRootAt m (Smr inp))) ;;
      check "sig.Verify(SMR): %v"
        (tcrypto_VerifyObject (mapPubKey v) smr sig) ;;;
      old <- gets (fun m => logRootAt m trusted) ;;
      new <- gets (fun m => logRootAt m (LogRoot inp)) ;;
      check "VerifyRoot(%v, %v): %v"
        (VerifyRoot (logVerifier v) old new (LogConsistency inp)) ;;;
      (* trusted = in.GetLogRoot(): the local pointer is redirected;
         no memory cell is written. *)
      let trusted := LogRoot inp in
      b <- lift (wrapped "json.Marshal(): %v" (json_Marshal smr0)) ;;
      logLeafIndex <-
        gets (fun m => GetMapRevision (mapRootAt m (Smr inp))) ;;
      root <- gets (fun m => logRootAt m trusted) ;;
      check "VerifyInclusionAtIndex(%s, %v, _): %v"
        (VerifyInclusionAtIndex (logVerifier v) root b logLeafIndex
           (LogInclusion inp))
  end.

(** [VerifyGetEntryResponse] (lines 75-150). *)
Definition VerifyGetEntryResponse (v : Verifier)
    (domainID appID userID : string)
    (trusted : option loc) (inp : GetEntryResponse) : M Mem unit :=
  e <- lift (entry.FromLeafValue (GetLeafValue (LeafProof inp))) ;;
  verifyCommitment userID appID e inp ;;;
  verifyProofs v domainID appID userID trusted inp.

End Verifier.
End kt.

(** * Package grpcc: the client (GetEntry, ListHistory, Update, Retry) *)

Module grpcc.

(** Each page contains [pageSize] profiles. *)
Definition pageSize : Z := 16.

Definition add64 (a b : Z) : Z := int64 (a + b).
Definition sub64 (a b : Z) : Z := int64 (a - b).

Record GetEntryRequest := {
  DomainId : string;
  UserId : string;
  AppId : string;
  FirstTreeSize : Z
}.

Record ListEntryHistoryRequest := {
  HistDomainId : string;
  HistUserId : string;
  HistAppId : string;
  Start : Z;
  PageSize : Z
}.

(** Responses as they arrive from the wire: roots by value. *)
Record GetEntryResponseWire := {
  wVrfProof : bytes;
  wCommitted : option Committed;
  wLeafProof : option MapLeafInclusion;
  wSmr : option SignedMapRoot;
  wLogRoot : option SignedLogRoot;
  wLogConsistency : list bytes;
  wLogInclusion : list bytes
}.
Record ListEntryHistoryResponseWire := {
  wValues : list GetEntryResponseWire;
  wNextStart : Z
}.
Record UpdateEntryResponseWire := {
  wProof : option GetEntryResponseWire
}.

(** Decoded responses. *)
Record ListEntryHistoryResponse := {
  Values : list GetEntryResponse;
  NextStart : Z
}.


(** The key server, and the functions of packages kt and entry that the
    client calls and that are defined in other files.  [Env] is the world
    outside the process: whatever the RPC stubs talk to. *)
Class Deps := {
  ktDeps : kt.Deps;
  Env : Type;
  cli_GetEntry :
    GetEntryRequest -> Env -> Env * result GetEntryResponseWire;
  cli_ListEntryHistory :
    ListEntryHistoryRequest -> Env ->
    Env * result ListEntryHistoryResponseWire;
  cli_UpdateEntry :
    entry.UpdateEntryRequest -> Env -> Env * result UpdateEntryResponseWire;
  Verifier_NewMutation :
    kt.Verifier -> string -> string -> string -> bytes -> list PublicKey ->
    bytes -> bytes -> Env -> Env * result entry.Mutation;
  Mutation_Check : entry.Mutation -> bytes -> result bool
}.
#[global] Existing Instance ktDeps.

Section Client.
  Context {D : Deps}.

(** What the process does to the outside, in order. *)
Inductive Event :=
| EvGetEntry (req : GetEntryRequest)
| EvListEntryHistory (req : ListEntryHistoryRequest)
| EvUpdateEntry (req : entry.UpdateEntryRequest)
| EvSleep (d : Z).

Record World := {
  mem : Mem;
  env : Env;
  trace : list Event
}.

Definition liftMem {A} (f : M Mem A) : M World A :=
  fun w =>
    let '(m', r) := f (mem w) in
    ({| mem := m'; env := env w; trace := trace w |}, r).

Definition liftEnv {A} (f : Env -> Env * result A) : M World A :=
  fun w =>
    let '(e', r) := f (env w) in
    ({| mem := mem w; env := e'; trace := trace w |}, of_result r).

Definition emit (ev : Event) : M World unit :=
  modify (fun w => {| mem := mem w; env := env w;
                      trace := trace w ++ [ev] |}).


(** Decoding allocates the roots of a response at fresh addresses. *)
Definition allocLogRoot (r : SignedLogRoot) : M Mem loc :=
  fun m =>
    let l := nextLoc m in
    ({| logRoots := <[l := r]> (logRoots m); mapRoots := mapRoots m;
        nextLoc := Pos.succ l |}, Done l).
Definition allocMapRoot (s : SignedMapRoot) : M Mem loc :=
  fun m =>
    let l := nextLoc m in
    ({| logRoots := logRoots m; mapRoots := <[l := s]> (mapRoots m);
        nextLoc := Pos.succ l |}, Done l).
Definition allocOpt {A} (alloc : A -> M Mem loc) (o : option A)
  : M Mem (option loc) :=
  match o with
  | None => ret None
  | Some a => l <- alloc a ;; ret (Some l)
  end.

Definition unmarshal (r : GetEntryResponseWire) : M Mem GetEntryResponse :=
  smr <- allocOpt allocMapRoot (wSmr r) ;;
  logRoot <- allocOpt allocLogRoot (wLogRoot r) ;;
  ret {| VrfProof := wVrfProof r; GetCommitted := wCommitted r;
         LeafProof := wLeafProof r; Smr := smr; LogRoot := logRoot;
         LogConsistency := wLogConsistency r;
         LogInclusion := wLogInclusion r |}.

Fixpoint unmarshalAll (rs : list GetEntryResponseWire)
  : M Mem (list GetEntryResponse) :=
  match rs with
  | [] => ret []
  | r :: rest =>
      v <- unmarshal r ;;
      vs <- unmarshalAll rest ;;
      ret (v :: vs)
  end.

(** [trusted] is the address of the field [c.trusted]. *)
Record Client := {
  domainID : string;
  kt : kt.Verifier;
  RetryCount : Z;
  RetryDelay : Z;
  trusted : loc
}.

Definition zeroLogRoot : SignedLogRoot :=
  {| LogId := 0; TreeSize := 0; LogRootHash := []; LogTimestampNanos := 0;
     LogSignature := None |}.

Definition second : Z := 1000000000.

Definition New (domainID : string) (vrf : kt.VrfKey)
    (mapPubKey : kt.PubKey) (mapHasher : kt.MapHasher)
    (logVerifier : kt.LogVerifier) : M Mem Client :=
  t <- allocLogRoot zeroLogRoot ;;
  ret {| domainID := domainID;
         kt := kt.New vrf mapHasher mapPubKey logVerifier;
         RetryCount := 1;
         RetryDelay := 3 * second;
         trusted := t |}.

(** [c.trusted.TreeSize] *)
Definition trustedTreeSize (c : Client) : M World Z :=
  gets (fun w => GetTreeSize (logRoots (mem w) !! trusted c)).

(** [c.kt.VerifyGetEntryResponse(ctx, c.domainID, appID, userID,
    &c.trusted, v)] *)
Definition verify (c : Client) (appID userID : string)
    (v : GetEntryResponse) : M World unit :=
  liftMem (kt.VerifyGetEntryResponse (kt c) (domainID c) appID userID
             (Some (trusted c)) v).

Definition GetEntry (c : Client) (userID appID : string)
  : M World (bytes * option loc) :=
  size <- trustedTreeSize c ;;
  let req := {| DomainId := domainID c; UserId := userID; AppId := appID;
                FirstTreeSize := size |} in
  emit (EvGetEntry req) ;;;
  e0 <- liftEnv (cli_GetEntry req) ;;
  e <- liftMem (unmarshal e0) ;;
  verify c appID userID e ;;;
  match GetCommitted e with
  | None => ret ([], Smr e)
  | Some cm => ret (Data cm, Smr e)
  end.

(** The loop over [resp.GetValues()] (lines 347-364): verify each
    value, and record it when its profile differs from
    [currentProfile]. *)
Fixpoint verifyValues (c : Client) (userID appID : string)
    (vs : list GetEntryResponse) (currentProfile : bytes)
    (profiles : gmap (option loc) bytes)
  : M World (bytes * gmap (option loc) bytes) :=
  match vs with
  | [] => ret (currentProfile, profiles)
  | v :: rest =>
      verify c appID userID v ;;;
      let profile := GetData (GetCommitted v) in
      if bytes_Equal currentProfile profile
      then verifyValues c userID appID rest currentProfile profiles
      else verifyValues c userID appID rest profile
             (<[Smr v := profile]> profiles)
  end.

(** The variables of [ListHistory] that change in its loop. *)
Record histState := {
  start : Z;
  epochsReceived : Z;
  currentProfile : bytes;
  profiles : gmap (option loc) bytes
}.

(** [c.cli.ListEntryHistory(...)] with the request of lines 335-341. *)
Definition fetchPage (c : Client) (userID appID : string) (end_ : Z)
    (st : histState) : M World ListEntryHistoryResponse :=
  let req := {| HistDomainId := domainID c; HistUserId := userID;
                HistAppId := appID; Start := start st;
                PageSize :=
                  Z.min (int32 (add64 (sub64 end_ (start st)) 1))
                        pageSize |} in
  emit (EvListEntryHistory req) ;;;
  resp <- liftEnv (cli_ListEntryHistory req) ;;
  vs <- liftMem (unmarshalAll (wValues resp)) ;;
  ret {| Values := vs; NextStart := wNextStart resp |}.

(** One iteration of the loop; the flag tells whether it ends with
    [break]. *)
Definition pageStep (c : Client) (userID appID : string) (end_ : Z)
    (st : histState) : M World (histState * bool) :=
  resp <- fetchPage c userID appID end_ st ;;
  let received :=
    add64 (epochsReceived st) (Z.of_nat (length (Values resp))) in
  r <- verifyValues c userID appID (Values resp) (currentProfile st)
         (profiles st) ;;
  if NextStart resp =? 0
  then ret ({| start := start st; epochsReceived := received;
               currentProfile := r.1; profiles := r.2 |}, true)
  else ret ({| start := NextStart resp; epochsReceived := received;
               currentProfile := r.1; profiles := r.2 |}, false).

(** [for epochsReceived < epochsWant { ... }]; [None] when [fuel]
    iterations were not enough. *)
Fixpoint historyLoop (fuel : nat) (c : Client) (userID appID : string)
    (end_ epochsWant : Z) (st : histState) : M World (option histState) :=
  if epochsReceived st <? epochsWant then
    match fuel with
    | O => ret None
    | S fuel' =>
        r <- pageStep c userID appID end_ st ;;
        if r.2 then ret (Some r.1)
        else historyLoop fuel' c userID appID end_ epochsWant r.1
    end
  else ret (Some st).

Definition ListHistory (fuel : nat) (c : Client) (userID appID : string)
    (start_ end_ : Z) : M World (option (gmap (option loc) bytes)) :=
  if start_ <? 0 then fail (Errorf "start=%v, want >= 0")
  else
    let epochsWant := add64 (sub64 end_ start_) 1 in
    r <- historyLoop fuel c userID appID end_ epochsWant
           {| start := start_; epochsReceived := 0;
              currentProfile := []; profiles := ∅ |} ;;
    match r with
    | None => ret None
    | Some st =>
        if epochsReceived st <? epochsWant then fail ErrIncomplete
        else ret (Some (profiles st))
    end.









End Client.
End grpcc.

(** * Package monitor (core/monitor/monitor.go) *)

Module monitor.

Record Epoch := {
  GetSmr_ : option SignedMapRoot;
  EpochLogRoot : option SignedLogRoot;
  EpochLogConsistency : list bytes;
  EpochLogInclusion : list bytes
}.
(** [epoch.GetSmr()] on a possibly nil [*pb.Epoch]. *)
Definition GetSmr (e : option Epoch) : option SignedMapRoot :=
  e ≫= GetSmr_.

Record MutationProof := {
  ProofMutation : option Entry;
  ProofLeaf : option MapLeafInclusion
}.

(** [EpochPair] is two adjacent epochs. *)
Record EpochPair := { A : option Epoch; B : option Epoch }.

(** [monitorstorage.Result] *)
Record Result := {
  Smr : option SignedMapRoot;
  Seen : Z;
  Errors : list error
}.

(** The parts of the monitor defined in other files and packages.
    [Monitor] stands for the fields of the [Monitor] struct that its
    verification methods read and update; [Store] is the
    [monitorstorage.Interface] behind [m.store]; [Env] is the world
    outside the process (mutation server, clock). *)
Class Deps := {
  Monitor : Type;
  Store : Type;
  Env : Type;
  mutCli_EpochMutations :
    option Epoch -> Env -> Env * result (list MutationProof);
  VerifyEpoch : option Epoch -> Monitor -> Monitor * list error;
  verifyMutations :
    list MutationProof -> bytes -> bytes -> Z -> Monitor ->
    Monitor * list error;
  signMapRoot :
    option SignedMapRoot -> Monitor -> result (option SignedMapRoot);
  store_Set : Z -> Result -> Store -> Store * option error;
  time_Now : Env -> Env * Z
}.

(** [EpochPairs] consumes epochs (0, 1, 2) and produces pairs (0,1),
    (1,2).  The channel of epochs is the list of what it delivers. *)
Fixpoint pairsFrom (epochA : option Epoch) (epochs : list (option Epoch))
  : list EpochPair :=
  match epochs with
  | [] => []
  | epoch :: rest =>
      match epochA with
      | None => pairsFrom epoch rest
      | Some _ => {| A := epochA; B := epoch |} :: pairsFrom epoch rest
      end
  end.
Definition EpochPairs (epochs : list (option Epoch)) : list EpochPair :=
  pairsFrom None epochs.

Section Monitor.
  Context {D : Deps}.

(** [sets] lists the calls [m.store.Set(revision, result)] made so
    far, oldest first. *)
Record World := {
  mon : Monitor;
  store : Store;
  env : Env;
  sets : list (Z * Result)
}.

Definition liftMon {A} (f : Monitor -> Monitor * A) : M World A :=
  fun w =>
    let '(m', a) := f (mon w) in
    ({| mon := m'; store := store w; env := env w; sets := sets w |},
     Done a).

Definition liftEnv {A} (f : Env -> Env * result A) : M World A :=
  fun w =>
    let '(e', r) := f (env w) in
    ({| mon := mon w; store := store w; env := e'; sets := sets w |},
     of_result r).

(** [len(errs) > 0] *)
Definition nonEmpty {A} (l : list A) : bool :=
  (0 <? Z.of_nat (length l))%Z.

(** [VerifyEpochMutations] validates that epochA + mutations = epochB. *)
Definition VerifyEpochMutations (epochA epochB : option Epoch)
    (mutations : list MutationProof) : Monitor -> Monitor * list error :=
  fun m =>
    let '(m1, errs) := VerifyEpoch epochB m in
    if nonEmpty errs then (m1, errs)
    else
      let smrA := GetSmr epochA in
      let smrB := GetSmr epochB in
      let '(m2, errs2) :=
        verifyMutations mutations (GetRootHash smrA) (GetRootHash smrB)
          (GetMapId smrB) m1 in
      if nonEmpty errs2 then (m2, errs2) else (m2, []).

(** [m.store.Set(revision, result)] *)
Definition storeSet (revision : Z) (r : Result) : M World unit :=
  fun w =>
    let '(s', e) := store_Set revision r (store w) in
    ({| mon := mon w; store := s'; env := env w;
        sets := sets w ++ [(revision, r)] |},
     match e with
     | None => Done tt
     | Some e => Fail (ErrorfW "monitorstorage.Set(%v, _): %v" e)
     end).

(** The body of the loop of [ProcessLoop] (lines 141-168). *)
Definition processPair (pair : EpochPair) : M World unit :=
  let revision := GetMapRevision (GetSmr (B pair)) in
  mutations <- liftEnv (mutCli_EpochMutations (B pair)) ;;
  errs <- liftMon (VerifyEpochMutations (A pair) (B pair) mutations) ;;
  r <- (if nonEmpty errs then ret (None, errs)
        else
          m <- gets mon ;;
          smr <- lift (signMapRoot (GetSmr (B pair)) m) ;;
          ret (smr, [])) ;;
  seen <- liftEnv (fun e => let '(e', t) := time_Now e in (e', Ok t)) ;;
  storeSet revision {| Smr := r.1; Seen := seen; Errors := r.2 |}.

(** [for pair := range pairs { ... }]: [pairs] is what the channel
    delivers. *)
Fixpoint processPairs (pairs : list EpochPair) : M World unit :=
  match pairs with
  | [] => ret tt
  | p :: rest => processPair p ;;; processPairs rest
  end.

(** [ProcessLoop]: [pairs] is what the two producers deliver on the
    channel and [errA], [errB] are their results in the order in which
    they arrive on [errc]. *)
Definition ProcessLoop (pairs : list EpochPair)
    (errA errB : option error) : M World unit :=
  processPairs pairs ;;;
  match errA with
  | Some err => fail err
  | None => match errB with Some err => fail err | None => ret tt end
  end.

End Monitor.
End monitor.

(** * Test doubles

Concrete collaborators on which the definitions above can be run. *)

Module demo.

(** A leaf is a tag byte followed by the commitment; the empty leaf is
    the absent entry. *)
Definition decodeLeaf (leaf : bytes) : result (option Entry) :=
  match leaf with
  | [] => Ok None
  | _ :: c =>
      Ok (Some {| Index := []; Commitment := c; AuthorizedKeys := [];
                    Previous := []; Signatures := ∅ |})
  end.

Definition entryDeps : entry.Deps :=
  {| entry.JSON := bytes;
     entry.nilHash := [];
     entry.FromLeafValue := decodeLeaf;
     entry.objecthash_CommonJSONify := fun e => Ok (GetCommitment e);
     entry.objecthash_ObjectHash := fun j => Ok j;
     entry.verifyKeys := fun prevAuth _ _ sigs =>
       match prevAuth with
       | [] => None
       | _ => if decide (sigs = ∅)
              then Some (ErrExternal "unauthorized") else None
       end;
     entry.Mutate := fun _ e =>
       match AuthorizedKeys e with
       | [] => Err ErrMissingKey
       | _ => Ok e
       end |}.

(** A commitment opens when it is the nonce followed by the data; a log
    root is accepted when the tree did not shrink. *)
Definition ktDeps : kt.Deps :=
  {| kt.entryDeps := entryDeps;
     kt.VrfKey := unit;
     kt.MapHasher := unit;
     kt.PubKey := unit;
     kt.commitments_Verify := fun _ _ commitment data nonce =>
       if decide (commitment = nonce ++ data) then None
       else Some (ErrExternal "commitment");
     kt.Index_ := fun _ proof _ _ _ => Ok proof;
     kt.merkle_VerifyMapInclusionProof := fun _ _ _ _ _ _ => None;
     kt.tcrypto_VerifyObject := fun _ _ _ => None;
     kt.json_Marshal := fun s => Ok (RootHash s) |}.

Definition logVerifier : kt.LogVerifier :=
  {| kt.VerifyRoot := fun old new _ =>
       if GetTreeSize new <? GetTreeSize old
       then Some (ErrExternal "rewind") else None;
     kt.VerifyInclusionAtIndex := fun root _ index _ =>
       if index <? GetTreeSize root then None
       else Some (ErrExternal "inclusion") |}.

Definition verifier : kt.Verifier (D := ktDeps) :=
  kt.New (D := ktDeps) tt tt tt logVerifier.

Definition root (size : Z) : SignedLogRoot :=
  {| LogId := 1; TreeSize := size; LogRootHash := [];
     LogTimestampNanos := 0; LogSignature := None |}.
Definition smr (revision : Z) : SignedMapRoot :=
  {| MapId := 2; MapRevision := revision; RootHash := [];
     TimestampNanos := 0; Metadata := []; SmrSignature := None |}.

(** The caller's root (size 0) at address 1, the response's log root
    (size 5) at address 2 and its SMR (revision 3) at address 3. *)
Definition mem0 : Mem :=
  {| logRoots := <[2%positive := root 5]> {[1%positive := root 0]};
     mapRoots := {[3%positive := smr 3]};
     nextLoc := 4%positive |}.

Definition response (committed : option Committed) (leaf : bytes)
  : GetEntryResponse :=
  {| VrfProof := []; GetCommitted := committed;
     LeafProof := Some {| Leaf := Some {| LeafIndex := [];
                                           LeafValue := leaf |};
                          Inclusion := [] |};
     Smr := Some 3%positive; LogRoot := Some 2%positive;
     LogConsistency := []; LogInclusion := [] |}.

(** Responses as the demo key server sends them. *)
Definition wire (committed : option Committed) (leaf : bytes)
    (revision : Z) : grpcc.GetEntryResponseWire :=
  {| grpcc.wVrfProof := []; grpcc.wCommitted := committed;
     grpcc.wLeafProof :=
       Some {| Leaf := Some {| LeafIndex := []; LeafValue := leaf |};
               Inclusion := [] |};
     grpcc.wSmr := Some (smr revision);
     grpcc.wLogRoot := Some (root 5);
     grpcc.wLogConsistency := []; grpcc.wLogInclusion := [] |}.

(** An epoch in which the profile is [data] (committed under the empty
    nonce). *)
Definition epochWith (data : bytes) (revision : Z)
  : grpcc.GetEntryResponseWire :=
  wire (Some {| Key := []; Data := data |}) (Byte.x00 :: data) revision.

(** Four epochs: no profile, then [01], [01] again, then [02]. *)
Definition history : list grpcc.GetEntryResponseWire :=
  [ wire None [] 0; epochWith [Byte.x01] 1; epochWith [Byte.x01] 2;
    epochWith [Byte.x02] 3 ].

(** The demo key server.  Its state counts the updates received: the
    first update is not yet visible in its answer, later ones are. *)
Definition grpccDeps : grpcc.Deps :=
  {| grpcc.ktDeps := ktDeps;
     grpcc.Env := nat;
     grpcc.cli_GetEntry := fun _ n => (n, Ok (wire None [] 0));
     grpcc.cli_ListEntryHistory := fun req n =>
       let next := grpcc.Start req + grpcc.PageSize req in
       (n, Ok {| grpcc.wValues :=
                   take (Z.to_nat (grpcc.PageSize req))
                        (drop (Z.to_nat (grpcc.Start req)) history);
                 grpcc.wNextStart :=
                   if next <? Z.of_nat (length history) then next else 0 |});
     grpcc.cli_UpdateEntry := fun _ n =>
       (S n,
        Ok {| grpcc.wProof :=
                Some (wire None
                        (match n with
                         | O => []
                         | S _ => [Byte.x00; Byte.x07]
                         end) 1) |});
     grpcc.Verifier_NewMutation :=
       fun _ domainID appID userID profileData authorizedKeys vrfProof _ n =>
         (n, Ok (entry.withEntry (entry.setAuthorizedKeys authorizedKeys)
                   (entry.NewMutation (D := entryDeps) vrfProof
                      domainID appID userID)));
     grpcc.Mutation_Check := fun _ leaf =>
       Ok (negb (bool_decide (leaf = []))) |}.

Definition client (retryCount : Z) : grpcc.Client (D := grpccDeps) :=
  grpcc.Build_Client (D := grpccDeps) "example.com" verifier retryCount
    (3 * grpcc.second) 1%positive.

(** The client's root (size 0) is the only object in memory. *)
Definition world0 : grpcc.World (D := grpccDeps) :=
  grpcc.Build_World (D := grpccDeps)
    {| logRoots := {[1%positive := root 0]}; mapRoots := ∅;
       nextLoc := 2%positive |}
    0%nat [].


(** A demo monitor: an epoch whose SMR has revision 2 does not verify;
    countersigning sets the signature; the store keeps the last result
    per revision; the clock ticks at every reading. *)
Definition monitorDeps : monitor.Deps :=
  {| monitor.Monitor := unit;
     monitor.Store := gmap Z monitor.Result;
     monitor.Env := Z;
     monitor.mutCli_EpochMutations := fun _ e => (e, Ok []);
     monitor.VerifyEpoch := fun epoch m =>
       (m, if GetMapRevision (monitor.GetSmr epoch) =? 2
           then [ErrExternal "bad epoch"] else []);
     monitor.verifyMutations := fun _ _ _ _ m => (m, []);
     monitor.signMapRoot := fun s _ =>
       Ok (match s with
           | Some s =>
               Some {| MapId := MapId s; MapRevision := MapRevision s;
                       RootHash := RootHash s;
                       TimestampNanos := TimestampNanos s;
                       Metadata := Metadata s;
                       SmrSignature := Some {| Signature := [Byte.x4d] |} |}
           | None => None
           end);
     monitor.store_Set := fun revision r st => (<[revision := r]> st, None);
     monitor.time_Now := fun t => (t + 1, t) |}.

Definition epoch (revision : Z) : option monitor.Epoch :=
  Some {| monitor.GetSmr_ := Some (smr revision);
          monitor.EpochLogRoot := Some (root 5);
          monitor.EpochLogConsistency := [];
          monitor.EpochLogInclusion := [] |}.

Definition monitorWorld : monitor.World (D := monitorDeps) :=
  monitor.Build_World (D := monitorDeps) tt ∅ 100 [].

(** The pair (epoch 1, epoch 2), whose second epoch does not verify, and
    the pair (epoch 2, epoch 3), which does. *)
Definition badPair : monitor.EpochPair :=
  {| monitor.A := epoch 1; monitor.B := epoch 2 |}.
Definition goodPair : monitor.EpochPair :=
  {| monitor.A := epoch 2; monitor.B := epoch 3 |}.

End demo.

(** ** Inputs and vocabulary of the statements below *)

(** The requirement of the specification on a response without
    [committed], in the specification's words: an empty-entry leaf carries
    no commitment, and a present leaf carries a non-empty commitment. *)
Definition commitmentMatchesDeclaredState (e : option Entry) : bool :=
  match e with
  | None => true
  | Some e => negb (bool_decide (Commitment e = []))
  end.

(** A response whose [committed] does not open the leaf's commitment. *)
Definition tamperedResponse : GetEntryResponse :=
  demo.response (Some {| Key := []; Data := [Byte.x01] |})
                [Byte.x00; Byte.x02].

(** A present leaf (tag byte only) whose entry carries an empty
    commitment, sent without [committed]. *)
Definition bareLeafResponse : GetEntryResponse :=
  demo.response None [Byte.x00].

(** A proof of absence: empty leaf, no [committed]. *)
Definition absenceResponse : GetEntryResponse := demo.response None [].

(** The entry under construction with its [Signatures] cleared, the
    entry carrying a signature set, and the submission built from them
    (lines 133-145). *)
Definition clearedEntry (m : entry.Mutation) : Entry :=
  entry.setSignatures ∅ (entry.entry m).
Definition signedEntry (sigs : gmap string DigitallySigned)
    (m : entry.Mutation) : Entry :=
  entry.setSignatures sigs (entry.entry m).
Definition submission (m : entry.Mutation)
    (sigs : gmap string DigitallySigned) (trustedTreeSize : Z)
  : entry.UpdateEntryRequest :=
  {| entry.ReqDomainId := entry.DomainID m;
     entry.ReqUserId := entry.UserID m;
     entry.ReqAppId := entry.AppID m;
     entry.FirstTreeSize := trustedTreeSize;
     entry.GetEntryUpdate :=
       {| entry.EntryMutation := signedEntry sigs m;
          entry.EntryCommitted :=
            {| Key := entry.nonce m; Data := entry.data m |} |} |}.

(** The profile an epoch carries: [v.GetCommitted().GetData()]. *)
Definition profileOf (v : GetEntryResponse) : bytes :=
  GetData (GetCommitted v).

(** Compression in the words of the specification: walking the epochs in
    order, an epoch is a change point when its profile differs from the
    profile of the epoch before it (from [prev] for the first epoch); the
    result lists the (SMR, profile) pair of every change point. *)
Fixpoint changePoints (prev : bytes) (vs : list GetEntryResponse)
  : list (option loc * bytes) :=
  match vs with
  | [] => []
  | v :: rest =>
      (if decide (profileOf v = prev) then []
       else [(Smr v, profileOf v)])
      ++ changePoints (profileOf v) rest
  end.

(** The profile of the last epoch of [vs], or [prev] when there is none. *)
Definition lastProfile (prev : bytes) (vs : list GetEntryResponse) : bytes :=
  foldl (fun _ v => profileOf v) prev vs.

(** Where the SMRs of decoded responses live: every recorded key is a
    non-nil pointer below [hi]; the SMR pointers of [vs] increase
    strictly from [lo]; they stay below [hi]. *)
Definition keysBelow (hi : loc) (l : list (option loc * bytes)) : Prop :=
  Forall (fun kv => exists x, kv.1 = Some x /\ (x < hi)%positive) l.
Fixpoint increasing (lo : loc) (vs : list GetEntryResponse) : Prop :=
  match vs with
  | [] => True
  | v :: rest =>
      match Smr v with
      | Some x => (lo <= x)%positive /\ increasing (Pos.succ x) rest
      | None => increasing lo rest
      end
  end.
Definition smrBelow (hi : loc) (vs : list GetEntryResponse) : Prop :=
  Forall (fun v => forall x, Smr v = Some x -> (x < hi)%positive) vs.

Section ClientVocabulary.
Context {D : grpcc.Deps}.


(** The loop variables of [ListHistory] on entry, and after a page
    [resp] whose values verified with result [r]; [next] is the new
    [start]. *)
Definition initState (start_ : Z) : grpcc.histState :=
  {| grpcc.start := start_; grpcc.epochsReceived := 0;
     grpcc.currentProfile := []; grpcc.profiles := ∅ |}.
Definition afterPage (st : grpcc.histState)
    (resp : grpcc.ListEntryHistoryResponse)
    (r : bytes * gmap (option loc) bytes) (next : Z) : grpcc.histState :=
  {| grpcc.start := next;
     grpcc.epochsReceived :=
       grpcc.add64 (grpcc.epochsReceived st)
         (Z.of_nat (length (grpcc.Values resp)));
     grpcc.currentProfile := r.1; grpcc.profiles := r.2 |}.

(** [historyRun c userID appID end_ want n b st w vs st' w']: started
    with loop variables [st] in world [w], the loop of [ListHistory]
    fetches [n] pages, every value of which verifies, and then exits with
    variables [st'] in world [w']; [vs] lists the values received, in
    order; [b] tells whether the loop was left by [break] (the last page
    had [NextStart = 0]) rather than by its condition. *)
Inductive historyRun (c : grpcc.Client) (userID appID : string)
    (end_ want : Z)
  : nat -> bool -> grpcc.histState -> grpcc.World ->
    list GetEntryResponse -> grpcc.histState -> grpcc.World -> Prop :=
| run_exit st w :
    want <= grpcc.epochsReceived st ->
    historyRun c userID appID end_ want 0 false st w [] st w
| run_break st w resp w1 r w2 :
    grpcc.epochsReceived st < want ->
    grpcc.fetchPage c userID appID end_ st w = (w1, Done resp) ->
    grpcc.verifyValues c userID appID (grpcc.Values resp)
      (grpcc.currentProfile st) (grpcc.profiles st) w1 = (w2, Done r) ->
    grpcc.NextStart resp = 0 ->
    historyRun c userID appID end_ want 1 true st w (grpcc.Values resp)
      (afterPage st resp r (grpcc.start st)) w2
| run_next n b st w resp w1 r w2 vs st' w' :
    grpcc.epochsReceived st < want ->
    grpcc.fetchPage c userID appID end_ st w = (w1, Done resp) ->
    grpcc.verifyValues c userID appID (grpcc.Values resp)
      (grpcc.currentProfile st) (grpcc.profiles st) w1 = (w2, Done r) ->
    grpcc.NextStart resp <> 0 ->
    historyRun c userID appID end_ want n b
      (afterPage st resp r (grpcc.NextStart resp)) w2 vs st' w' ->
    historyRun c userID appID end_ want (S n) b st w
      (grpcc.Values resp ++ vs) st' w'.

End ClientVocabulary.

(** * Properties of the response verifier *)

(** Unfolds the monad operations so that a computation becomes nested
    matches on the results of its steps. *)
Ltac munfold :=
  unfold bind, lift, gets, modify, check, wrapped, ret, fail, panic in *.

Section VerifierFacts.
  Context {D : kt.Deps}.
  Implicit Types (v : kt.Verifier) (inp : GetEntryResponse) (m : Mem).

Lemma verifyCommitment_mem userID appID e inp m :
  (kt.verifyCommitment userID appID e inp m).1 = m.
Proof.
  unfold kt.verifyCommitment. munfold.
  repeat case_match; reflexivity.
Qed.

Lemma verifyProofs_mem v d a u t inp m :
  (kt.verifyProofs v d a u t inp m).1 = m.
Proof.
  unfold kt.verifyProofs, kt.derefSmr. munfold.
  repeat (case_match; simplify_eq/=; try reflexivity).
Qed.

(** The verifier never writes to memory: whatever it returns, every
    cell holds what it held before the call. *)
Lemma VerifyGetEntryResponse_mem v d a u t inp m :
  (kt.VerifyGetEntryResponse v d a u t inp m).1 = m.
Proof.
  unfold kt.VerifyGetEntryResponse, bind, lift.
  destruct (entry.FromLeafValue _) as [e|]; simpl; try reflexivity.
  pose proof (verifyCommitment_mem u a e inp m) as Hc.
  destruct (kt.verifyCommitment u a e inp m) as [m1 [[]| |]];
    simpl in Hc; subst m1; simpl; try reflexivity.
  apply verifyProofs_mem.
Qed.

(** With [committed] absent the commitment step does nothing. *)
Lemma verifyCommitment_absent userID appID e inp :
  GetCommitted inp = None ->
  kt.verifyCommitment userID appID e inp = ret tt.
Proof. unfold kt.verifyCommitment. intros ->. reflexivity. Qed.

End VerifierFacts.

Section VerifierClaims.
  Context {D : kt.Deps}.
  Implicit Types (v : kt.Verifier) (inp : GetEntryResponse) (m : Mem).

(** C2.  When [VerifyGetEntryResponse] returns an error, the root the
    caller passed by reference holds the value it held before the
    call. *)
Theorem VerifyGetEntryResponse_error_keeps_trusted_root
    v d a u (trusted : loc) inp m m' err :
  kt.VerifyGetEntryResponse v d a u (Some trusted) inp m = (m', Fail err) ->
  logRoots m' !! trusted = logRoots m !! trusted.
Proof.
  intros Hrun.
  pose proof (VerifyGetEntryResponse_mem v d a u (Some trusted) inp m) as Hm.
  rewrite Hrun in Hm. simpl in Hm. by subst m'.
Qed.

(** C3, as amended.  When [committed] is absent the commitment step is
    skipped and nothing is required of the commitment field of the
    decoded leaf: once the leaf decodes, the outcome is that of the
    remaining steps, which do not look at the entry. *)
Theorem VerifyGetEntryResponse_committed_absent v d a u t inp m :
  GetCommitted inp = None ->
  kt.VerifyGetEntryResponse v d a u t inp m =
    match entry.FromLeafValue (GetLeafValue (LeafProof inp)) with
    | Ok _ => kt.verifyProofs v d a u t inp m
    | Err e => (m, Fail e)
    end.
Proof.
  intros Habs. unfold kt.VerifyGetEntryResponse, bind at 1, lift.
  destruct (entry.FromLeafValue _) as [e|]; cbn [of_result];
    try reflexivity.
  rewrite (verifyCommitment_absent u a e inp Habs).
  reflexivity.
Qed.

(** C4.  When the steps before it pass, the outcome of
    [VerifyGetEntryResponse] is the outcome of the log verifier's
    inclusion check called with the log root of the response (the one
    just accepted by the consistency check), the JSON encoding of the
    SMR as leaf bytes, and the SMR's map revision as leaf index. *)
Theorem VerifyGetEntryResponse_log_inclusion
    v d a u t inp m e lp index s b :
  entry.FromLeafValue (GetLeafValue (LeafProof inp)) = Ok e ->
  kt.verifyCommitment u a e inp m = (m, Done tt) ->
  kt.Index v (VrfProof inp) d a u = Ok index ->
  LeafProof inp = Some lp ->
  mapRootAt m (Smr inp) = Some s ->
  kt.merkle_VerifyMapInclusionProof (MapId s) index
    (GetLeafValue (Some lp)) (RootHash s) (Inclusion lp) (kt.hasher v)
    = None ->
  kt.tcrypto_VerifyObject (kt.mapPubKey v) (clearSignature s)
    (SmrSignature s) = None ->
  kt.VerifyRoot (kt.logVerifier v) (logRootAt m t)
    (logRootAt m (LogRoot inp)) (LogConsistency inp) = None ->
  kt.json_Marshal s = Ok b ->
  kt.VerifyGetEntryResponse v d a u t inp m =
    (m, match kt.VerifyInclusionAtIndex (kt.logVerifier v)
                (logRootAt m (LogRoot inp)) b (MapRevision s)
                (LogInclusion inp) with
        | None => Done tt
        | Some err =>
            Fail (ErrorfW "VerifyInclusionAtIndex(%s, %v, _): %v" err)
        end).
Proof.
  intros Hdec Hcom Hidx Hlp Hs Hmap Hsig Hroot Hjson.
  unfold kt.VerifyGetEntryResponse, bind at 1, lift. rewrite Hdec.
  cbn [of_result]. unfold bind at 1. rewrite Hcom.
  unfold kt.verifyProofs, kt.derefSmr. munfold.
  rewrite Hidx, Hlp, Hs. simpl in *.
  rewrite Hmap. simpl. repeat (rewrite Hs; simpl). rewrite Hsig. simpl.
  rewrite Hroot. simpl. rewrite Hjson. repeat (rewrite Hs; simpl).
  destruct (kt.VerifyInclusionAtIndex _ _ _ _ _); reflexivity.
Qed.

End VerifierClaims.

Lemma VerifyGetEntryResponse_error_keeps_trusted_root_witness :
  is_Fail (kt.VerifyGetEntryResponse (D := demo.ktDeps) demo.verifier
             "example.com" "app" "alice" (Some 1%positive)
             tamperedResponse demo.mem0).2 = true /\
  logRoots (kt.VerifyGetEntryResponse (D := demo.ktDeps) demo.verifier
              "example.com" "app" "alice" (Some 1%positive)
              tamperedResponse demo.mem0).1 !! 1%positive
  = logRoots demo.mem0 !! 1%positive.
Proof.
  split; [vm_compute; reflexivity|].
  eapply (VerifyGetEntryResponse_error_keeps_trusted_root (D := demo.ktDeps)
            demo.verifier "example.com" "app" "alice" 1%positive
            tamperedResponse demo.mem0 _
            (ErrorfW "commitments.Verify(%v, %v, %v, %v, %v): %v"
                     (ErrExternal "commitment"))).
  vm_compute. reflexivity.
Defined.

(** C1.  A call in which every step passes returns nil, and the root the
    caller passed by reference (address 1, tree size 0) is not overwritten
    with the log root of the response (address 2, tree size 5). *)
Theorem VerifyGetEntryResponse_success_leaves_trusted_root :
  let r := kt.VerifyGetEntryResponse (D := demo.ktDeps) demo.verifier
             "example.com" "app" "alice" (Some 1%positive)
             absenceResponse demo.mem0 in
  r.2 = Done tt /\
  logRootAt r.1 (Some 1%positive) = Some (demo.root 0) /\
  logRootAt r.1 (LogRoot absenceResponse) = Some (demo.root 5) /\
  logRootAt r.1 (Some 1%positive) <> logRootAt r.1 (LogRoot absenceResponse).
Proof.
  vm_compute. repeat split; try reflexivity. discriminate.
Qed.

(** C3 as stated fails: [committed] is absent, the leaf is present and
    its commitment is empty, so the leaf does not match its declared
    state, and the verifier still returns nil. *)
Lemma VerifyGetEntryResponse_accepts_bare_leaf :
  GetCommitted bareLeafResponse = None /\
  (exists e,
     entry.FromLeafValue (Deps := demo.entryDeps)
       (GetLeafValue (LeafProof bareLeafResponse)) = Ok e /\
     commitmentMatchesDeclaredState e = false) /\
  (kt.VerifyGetEntryResponse (D := demo.ktDeps) demo.verifier
     "example.com" "app" "alice" (Some 1%positive)
     bareLeafResponse demo.mem0).2 = Done tt.
Proof.
  split; [reflexivity|]. split; [|vm_compute; reflexivity].
  eexists. split; [reflexivity|]. vm_compute. reflexivity.
Qed.

Lemma VerifyGetEntryResponse_committed_absent_witness :
  GetCommitted bareLeafResponse = None /\
  kt.VerifyGetEntryResponse (D := demo.ktDeps) demo.verifier
    "example.com" "app" "alice" (Some 1%positive) bareLeafResponse demo.mem0
  = kt.verifyProofs (D := demo.ktDeps) demo.verifier
      "example.com" "app" "alice" (Some 1%positive) bareLeafResponse demo.mem0.
Proof.
  split; [reflexivity|].
  rewrite (VerifyGetEntryResponse_committed_absent (D := demo.ktDeps)
             demo.verifier "example.com" "app" "alice" (Some 1%positive)
             bareLeafResponse demo.mem0 eq_refl).
  reflexivity.
Defined.

Lemma VerifyGetEntryResponse_log_inclusion_witness :
  kt.VerifyGetEntryResponse (D := demo.ktDeps) demo.verifier
    "example.com" "app" "alice" (Some 1%positive) absenceResponse demo.mem0
  = (demo.mem0,
     match kt.VerifyInclusionAtIndex demo.logVerifier
             (Some (demo.root 5)) [] 3 [] with
     | None => Done tt
     | Some err => Fail (ErrorfW "VerifyInclusionAtIndex(%s, %v, _): %v" err)
     end).
Proof.
  apply (VerifyGetEntryResponse_log_inclusion (D := demo.ktDeps)
           demo.verifier "example.com" "app" "alice" (Some 1%positive)
           absenceResponse demo.mem0 None
           {| Leaf := Some {| LeafIndex := []; LeafValue := [] |};
              Inclusion := [] |}
           [] (demo.smr 3) []);
    reflexivity.
Defined.


(** * Properties of the mutation builder *)

Section BuilderClaims.
Context {D : entry.Deps}.
Implicit Types (m : entry.Mutation) (signers : list entry.Signer).

(** C6.  [ReplaceAuthorizedKeys] fails with [ErrMissingKey] exactly when
    [pubkeys] is empty, and then leaves the mutation as it was; for a
    non-empty [pubkeys] it returns nil and the entry's authorized keys are
    [pubkeys], nothing else being changed. *)
Theorem ReplaceAuthorizedKeys_spec (pubkeys : list PublicKey) m :
  (pubkeys = [] <->
   (entry.ReplaceAuthorizedKeys pubkeys m).2 = Fail ErrMissingKey) /\
  (pubkeys = [] -> (entry.ReplaceAuthorizedKeys pubkeys m).1 = m) /\
  (pubkeys <> [] ->
   entry.ReplaceAuthorizedKeys pubkeys m =
     (entry.withEntry (entry.setAuthorizedKeys pubkeys) m, Done tt) /\
   AuthorizedKeys (entry.entry (entry.ReplaceAuthorizedKeys pubkeys m).1)
   = pubkeys).
Proof.
  unfold entry.ReplaceAuthorizedKeys.
  destruct pubkeys as [|k ks].
  - simpl. repeat split; try reflexivity; try done.
  - replace (Z.of_nat (length (k :: ks)) <? 1) with false
      by (symmetry; apply Z.ltb_ge; simpl length; lia).
    cbn. repeat split; try reflexivity; try done.
Qed.

Lemma sign_run signers m :
  entry.sign signers m =
    match entry.signLoop (clearedEntry m) signers ∅ with
    | Ok sigs =>
        (entry.withEntry (entry.setSignatures sigs) m, Done (signedEntry sigs m))
    | Err e => (entry.withEntry (entry.setSignatures ∅) m, Fail e)
    end.
Proof.
  unfold entry.sign, clearedEntry, signedEntry. munfold. destruct m as [? ? ? ? ? ? e].
  cbn. destruct (entry.signLoop _ signers ∅); reflexivity.
Qed.

(** Every signature in the set produced by [sign] was made by one of the
    signers over the entry with its signatures cleared. *)
Lemma signLoop_sound (e : Entry) signers :
  forall acc sigs k sig,
    entry.signLoop e signers acc = Ok sigs ->
    sigs !! k = Some sig ->
    acc !! k = Some sig \/
    exists s, s ∈ signers /\ entry.KeyID s = k /\ entry.Sign s e = Ok sig.
Proof.
  induction signers as [|s rest IH]; intros acc sigs k sig Hrun Hk.
  - simpl in Hrun. injection Hrun as <-. by left.
  - simpl in Hrun. destruct (entry.Sign s e) as [sg|] eqn:Hs; [|done].
    destruct (IH _ _ _ _ Hrun Hk) as [Hacc | (s' & Hin & Hid & Hsig)].
    + destruct (decide (entry.KeyID s = k)) as [<-|Hne].
      * rewrite lookup_insert_eq in Hacc. injection Hacc as <-.
        right. exists s. split; [left|done].
      * rewrite lookup_insert_ne in Hacc by done. by left.
    + right. exists s'. split; [by right|done].
Qed.

(** The run of [SerializeAndSign], step by step. *)
Lemma SerializeAndSign_run signers (trustedTreeSize : Z) m :
  entry.SerializeAndSign signers trustedTreeSize m =
    match entry.signLoop (clearedEntry m) signers ∅ with
    | Err e => (entry.withEntry (entry.setSignatures ∅) m, Fail e)
    | Ok sigs =>
        let m' := entry.withEntry (entry.setSignatures sigs) m in
        match entry.verifyKeys (GetAuthorizedKeys (entry.prevEntry m))
                (AuthorizedKeys (entry.entry m)) (clearedEntry m) sigs with
        | Some e =>
            (m', Fail (ErrorfW
                   "verifyKeys(prevauth: %v, newauth: %v, sig: %v): %v" e))
        | None =>
            match entry.Mutate (entry.prevEntry m) (signedEntry sigs m) with
            | Ok _ => (m', Done (submission m sigs trustedTreeSize))
            | Err e => (m', Fail (ErrorfW "presign mutation check: %v" e))
            end
        end
    end.
Proof.
  unfold entry.SerializeAndSign. unfold bind at 1. rewrite sign_run.
  destruct (entry.signLoop (clearedEntry m) signers ∅) as [sigs|e];
    [|reflexivity].
  destruct m as [dom app usr dat non prev e0].
  unfold clearedEntry, signedEntry, submission. munfold. cbn.
  destruct (entry.verifyKeys _ _ _ sigs) as [e|]; cbn; [reflexivity|].
  destruct (entry.Mutate prev _) as [applied|e]; reflexivity.
Qed.

(** C5.  [SerializeAndSign] emits a submission exactly when signing
    succeeds, the signature set it produced over the entry with its
    signatures cleared passes [verifyKeys] against the previous entry's
    authorized keys, and the dry run [Mutate(prevEntry, entry)] succeeds;
    the submission then carries the signed entry and the committed
    (nonce, data).  In every other case it returns an error. *)
Theorem SerializeAndSign_emits signers (trustedTreeSize : Z) m :
  (forall req,
     (entry.SerializeAndSign signers trustedTreeSize m).2 = Done req <->
     exists sigs,
       entry.signLoop (clearedEntry m) signers ∅ = Ok sigs /\
       entry.verifyKeys (GetAuthorizedKeys (entry.prevEntry m))
         (AuthorizedKeys (entry.entry m)) (clearedEntry m) sigs = None /\
       (exists applied,
          entry.Mutate (entry.prevEntry m) (signedEntry sigs m) = Ok applied) /\
       req = submission m sigs trustedTreeSize) /\
  ((forall req,
      (entry.SerializeAndSign signers trustedTreeSize m).2 <> Done req) ->
   exists err,
     (entry.SerializeAndSign signers trustedTreeSize m).2 = Fail err).
Proof.
  rewrite SerializeAndSign_run.
  destruct (entry.signLoop (clearedEntry m) signers ∅) as [sigs|e] eqn:Hsign.
  2:{ cbn. split.
      - intros req. split; [intros [=]|]. intros (sigs & Hs & _). done.
      - intros _. eexists; reflexivity. }
  cbn zeta.
  destruct (entry.verifyKeys _ _ _ sigs) as [e|] eqn:Hkeys.
  { cbn. split.
    - intros req. split; [intros [=]|].
      intros (sigs' & Hs & Hk & _). simplify_eq.
    - intros _. eexists; reflexivity. }
  destruct (entry.Mutate _ (signedEntry sigs m)) as [applied|e] eqn:Hmut; cbn.
  - split.
    + intros req. split.
      * intros [= <-]. exists sigs.
        split; [done|]. split; [done|]. split; [by exists applied|done].
      * intros (sigs' & Hs & Hk & _ & ->). simplify_eq. reflexivity.
    + intros Hno. exfalso. eapply Hno. reflexivity.
  - split.
    + intros req. split; [intros [=]|].
      intros (sigs' & Hs & Hk & (applied & Hm) & _). congruence.
    + intros _. eexists; reflexivity.
Qed.

End BuilderClaims.

(** * Properties of the client *)

Section UpdateClaims.
Context {D : grpcc.Deps}.
Implicit Types (c : grpcc.Client) (signers : list entry.Signer).





End UpdateClaims.


Section HistoryClaims.
Context {D : grpcc.Deps}.
Implicit Types (c : grpcc.Client) (st : grpcc.histState) (w : grpcc.World).

Lemma int64_add_l a b : int64 (int64 a + b) = int64 (a + b).
Proof.
  unfold int64, wrap. f_equal.
  replace ((a + 2 ^ (64 - 1)) mod 2 ^ 64 - 2 ^ (64 - 1) + b + 2 ^ (64 - 1))
    with ((a + 2 ^ (64 - 1)) mod 2 ^ 64 + b) by lia.
  rewrite Zplus_mod_idemp_l. f_equal. lia.
Qed.

Lemma int64_idem a : int64 (int64 a) = int64 a.
Proof.
  transitivity (int64 (int64 a + 0)); [f_equal; lia|].
  rewrite int64_add_l. f_equal. lia.
Qed.

(** One iteration, in terms of its two steps. *)
Lemma pageStep_run c userID appID end_ st w :
  grpcc.pageStep c userID appID end_ st w =
    match grpcc.fetchPage c userID appID end_ st w with
    | (w1, Done resp) =>
        match grpcc.verifyValues c userID appID (grpcc.Values resp)
                (grpcc.currentProfile st) (grpcc.profiles st) w1 with
        | (w2, Done r) =>
            (w2, Done (if grpcc.NextStart resp =? 0
                       then (afterPage st resp r (grpcc.start st), true)
                       else (afterPage st resp r (grpcc.NextStart resp),
                             false)))
        | (w2, Fail e) => (w2, Fail e)
        | (w2, Panics) => (w2, Panics)
        end
    | (w1, Fail e) => (w1, Fail e)
    | (w1, Panics) => (w1, Panics)
    end.
Proof.
  unfold grpcc.pageStep, bind at 1.
  destruct (grpcc.fetchPage _ _ _ _ _ w) as [w1 [resp| |]]; try reflexivity.
  unfold bind.
  destruct (grpcc.verifyValues _ _ _ _ _ _ w1) as [w2 [r| |]];
    try reflexivity.
  destruct (grpcc.NextStart resp =? 0); reflexivity.
Qed.

(** A run of the loop is what [historyLoop] computes, given fuel for its
    pages. *)
Lemma historyLoop_of_run c userID appID end_ want n b st w vs st' w' :
  historyRun c userID appID end_ want n b st w vs st' w' ->
  forall fuel, (n <= fuel)%nat ->
    grpcc.historyLoop fuel c userID appID end_ want st w
      = (w', Done (Some st')).
Proof.
  induction 1 as [st w Hge|st w resp w1 r w2 Hlt Hfetch Hver Hnext
                 |n b st w resp w1 r w2 vs st' w' Hlt Hfetch Hver Hnext _ IH];
    intros fuel Hfuel.
  - destruct fuel; simpl;
      (replace (grpcc.epochsReceived st <? want) with false
         by (symmetry; apply Z.ltb_ge; lia)); reflexivity.
  - destruct fuel as [|fuel]; [lia|]. simpl.
    replace (grpcc.epochsReceived st <? want) with true
      by (symmetry; apply Z.ltb_lt; lia).
    unfold bind. rewrite pageStep_run, Hfetch, Hver, Hnext. reflexivity.
  - destruct fuel as [|fuel]; [lia|]. simpl.
    replace (grpcc.epochsReceived st <? want) with true
      by (symmetry; apply Z.ltb_lt; lia).
    unfold bind. rewrite pageStep_run, Hfetch, Hver.
    replace (grpcc.NextStart resp =? 0) with false
      by (symmetry; apply Z.eqb_neq; done).
    simpl. apply IH. lia.
Qed.

(** Conversely, whenever [historyLoop] returns it has made a run. *)
Lemma historyLoop_run c userID appID end_ want fuel :
  forall st w st' w',
    grpcc.historyLoop fuel c userID appID end_ want st w
      = (w', Done (Some st')) ->
    exists n b vs,
      historyRun c userID appID end_ want n b st w vs st' w' /\
      (n <= fuel)%nat.
Proof.
  induction fuel as [|fuel IH]; intros st w st' w' Hloop; simpl in Hloop;
    destruct (grpcc.epochsReceived st <? want) eqn:Hcond.
  - discriminate.
  - injection Hloop as <- <-. exists 0%nat, false, [].
    split; [|lia]. apply run_exit. by apply Z.ltb_ge.
  - apply Z.ltb_lt in Hcond. unfold bind in Hloop.
    rewrite pageStep_run in Hloop.
    destruct (grpcc.fetchPage _ _ _ _ _ w) as [w1 [resp| |]] eqn:Hfetch;
      try discriminate.
    destruct (grpcc.verifyValues _ _ _ _ _ _ w1) as [w2 [r| |]] eqn:Hver;
      try discriminate.
    destruct (grpcc.NextStart resp =? 0) eqn:Hnext; simpl in Hloop.
    + injection Hloop as <- <-. apply Z.eqb_eq in Hnext.
      exists 1%nat, true, (grpcc.Values resp).
      split; [|lia]. eapply run_break; eauto.
    + apply Z.eqb_neq in Hnext.
      destruct (IH _ _ _ _ Hloop) as (n & b & vs & Hrun & Hle).
      exists (S n), b, (grpcc.Values resp ++ vs).
      split; [|lia]. eapply run_next; eauto.
  - injection Hloop as <- <-. exists 0%nat, false, [].
    split; [|lia]. apply run_exit. by apply Z.ltb_ge.
Qed.

(** The counter of a run is the number of values received, as an
    [int64]. *)
Lemma historyRun_received c userID appID end_ want n b st w vs st' w' :
  historyRun c userID appID end_ want n b st w vs st' w' ->
  int64 (grpcc.epochsReceived st') =
  int64 (grpcc.epochsReceived st + Z.of_nat (length vs)).
Proof.
  induction 1 as [st w Hge|st w resp w1 r w2 Hlt Hfetch Hver Hnext
                 |n b st w resp w1 r w2 vs st' w' Hlt Hfetch Hver Hnext _ IH].
  - simpl. f_equal. lia.
  - simpl. unfold grpcc.add64. apply int64_idem.
  - rewrite IH. simpl. unfold grpcc.add64.
    rewrite int64_add_l, length_app. f_equal. lia.
Qed.

Lemma historyRun_counter c userID appID end_ want n b st w vs st' w' :
  historyRun c userID appID end_ want n b st w vs st' w' ->
  (st' = st /\ vs = []) \/
  grpcc.epochsReceived st' = int64 (grpcc.epochsReceived st')%Z.
Proof.
  induction 1 as [st w Hge|st w resp w1 r w2 Hlt Hfetch Hver Hnext
                 |n b st w resp w1 r w2 vs st' w' Hlt Hfetch Hver Hnext _ IH].
  - by left.
  - right. simpl. unfold grpcc.add64. by rewrite int64_idem.
  - right. destruct IH as [[-> _]|IH]; [|done].
    simpl. unfold grpcc.add64. by rewrite int64_idem.
Qed.

(** C8.  Take a run of [ListHistory(start, end)] in which every page
    arrives and every value verifies, and let [vs] be the epochs
    received.  The counter compared with [end - start + 1] is
    [len(vs)].  If the run ended on a page with [NextStart = 0] while the
    counter was below [end - start + 1], [ListHistory] returns
    [ErrIncomplete]; if the counter has reached [end - start + 1], it
    returns the collected map of profiles. *)
Theorem ListHistory_incomplete_or_profiles
    c userID appID start_ end_ want n b w vs st' w' fuel :
  0 <= start_ ->
  want = grpcc.add64 (grpcc.sub64 end_ start_) 1 ->
  historyRun c userID appID end_ want n b (initState start_) w vs st' w' ->
  (n <= fuel)%nat ->
  grpcc.epochsReceived st' = int64 (Z.of_nat (length vs)) /\
  (b = true -> grpcc.epochsReceived st' < want ->
   grpcc.ListHistory fuel c userID appID start_ end_ w
     = (w', Fail ErrIncomplete)) /\
  (want <= grpcc.epochsReceived st' ->
   grpcc.ListHistory fuel c userID appID start_ end_ w
     = (w', Done (Some (grpcc.profiles st')))).
Proof.
  intros Hstart -> Hrun Hfuel.
  pose proof (historyLoop_of_run _ _ _ _ _ _ _ _ _ _ _ _ Hrun fuel Hfuel)
    as Hloop.
  assert (grpcc.ListHistory fuel c userID appID start_ end_ w =
          (w', if grpcc.epochsReceived st'
                    <? grpcc.add64 (grpcc.sub64 end_ start_) 1
               then Fail ErrIncomplete
               else Done (Some (grpcc.profiles st')))) as Hlist.
  { unfold grpcc.ListHistory.
    replace (start_ <? 0) with false by (symmetry; apply Z.ltb_ge; lia).
    unfold bind. fold (initState start_). rewrite Hloop.
    destruct (_ <? _); reflexivity. }
  split; [|split].
  - pose proof (historyRun_received _ _ _ _ _ _ _ _ _ _ _ _ Hrun) as Hrec.
    destruct (historyRun_counter _ _ _ _ _ _ _ _ _ _ _ _ Hrun)
      as [[-> ->]|Hwrapped].
    + reflexivity.
    + rewrite Hwrapped, Hrec. reflexivity.
  - intros _ Hlt. rewrite Hlist.
    replace (_ <? _) with true by (symmetry; apply Z.ltb_lt; lia).
    reflexivity.
  - intros Hge. rewrite Hlist.
    replace (_ <? _) with false by (symmetry; apply Z.ltb_ge; lia).
    reflexivity.
Qed.

(** A run that ends below the wanted count ended on [NextStart = 0]. *)
Lemma historyRun_short c userID appID end_ want n b st w vs st' w' :
  historyRun c userID appID end_ want n b st w vs st' w' ->
  grpcc.epochsReceived st' < want -> b = true.
Proof.
  induction 1; intros Hlt; [lia|reflexivity|auto].
Qed.

End HistoryClaims.

Lemma ListHistory_incomplete_or_profiles_witness :
  exists w',
    grpcc.ListHistory (D := demo.grpccDeps) 1 (demo.client 1) "alice" "app"
      0 8 demo.world0 = (w', Fail ErrIncomplete).
Proof.
  eexists.
  edestruct (ListHistory_incomplete_or_profiles (D := demo.grpccDeps)
               (demo.client 1) "alice" "app" 0 8
               (grpcc.add64 (grpcc.sub64 8 0) 1) 1%nat true demo.world0)
    as (_ & Hshort & _).
  - lia.
  - reflexivity.
  - eapply run_break.
    + vm_compute. reflexivity.
    + vm_compute. reflexivity.
    + vm_compute. reflexivity.
    + reflexivity.
  - apply le_n.
  - apply Hshort; [reflexivity|]. vm_compute. reflexivity.
Defined.

Section CompressionFacts.
Context {D : grpcc.Deps}.
Implicit Types (c : grpcc.Client) (st : grpcc.histState) (w : grpcc.World).
Implicit Types (vs : list GetEntryResponse) (m : Mem).

Lemma changePoints_app prev vs1 vs2 :
  changePoints prev (vs1 ++ vs2) =
  changePoints prev vs1 ++ changePoints (lastProfile prev vs1) vs2.
Proof.
  revert prev. induction vs1 as [|v vs1 IH]; intros prev; [reflexivity|].
  simpl. rewrite IH, <- app_assoc. reflexivity.
Qed.

Lemma keysBelow_mono lo hi l :
  (lo <= hi)%positive -> keysBelow lo l -> keysBelow hi l.
Proof.
  intros Hle Hl. unfold keysBelow in *. eapply Forall_impl; [exact Hl|].
  intros kv (x & Hk & Hx). exists x. split; [done|lia].
Qed.

Lemma increasing_mono lo lo' vs :
  (lo' <= lo)%positive -> increasing lo vs -> increasing lo' vs.
Proof.
  revert lo lo'. induction vs as [|v vs IH]; intros lo lo' Hle; [done|].
  simpl. destruct (Smr v); [|by apply IH].
  intros [Hlo Hrest]. split; [lia|done].
Qed.

(** A verified response has an SMR: the verifier dereferences it. *)
Lemma verifyProofs_Done_smr (v : kt.Verifier) d a u t inp m m' :
  kt.verifyProofs v d a u t inp m = (m', Done tt) -> is_Some (Smr inp).
Proof.
  unfold kt.verifyProofs, kt.derefSmr, mapRootAt. munfold.
  destruct (Smr inp) as [l|]; [by eauto|].
  simpl. intros Hrun.
  repeat (case_match; simplify_eq/=).
Qed.

Lemma VerifyGetEntryResponse_Done_smr (v : kt.Verifier) d a u t inp m m' :
  kt.VerifyGetEntryResponse v d a u t inp m = (m', Done tt) ->
  is_Some (Smr inp).
Proof.
  unfold kt.VerifyGetEntryResponse, bind at 1, lift.
  destruct (entry.FromLeafValue _) as [e|]; cbn [of_result]; [|done].
  unfold bind at 1.
  destruct (kt.verifyCommitment u a e inp m) as [m1 [[]| |]]; try done.
  apply verifyProofs_Done_smr.
Qed.

Lemma verify_run c appID userID (v : GetEntryResponse) w w' r :
  grpcc.verify c appID userID v w = (w', r) ->
  w' = w /\ (r = Done tt -> is_Some (Smr v)).
Proof.
  unfold grpcc.verify, grpcc.liftMem.
  pose proof (VerifyGetEntryResponse_mem (grpcc.kt c) (grpcc.domainID c)
                appID userID (Some (grpcc.trusted c)) v (grpcc.mem w)) as Hm.
  destruct (kt.VerifyGetEntryResponse _ _ _ _ _ v (grpcc.mem w))
    as [m1 r1] eqn:Hrun.
  simpl in Hm. subst m1. intros [= <- <-]. split.
  - by destruct w.
  - intros ->. eapply VerifyGetEntryResponse_Done_smr, Hrun.
Qed.

(** Decoding a response puts its SMR at the first free address. *)
Lemma unmarshal_alloc (r : grpcc.GetEntryResponseWire) m :
  exists m' v,
    grpcc.unmarshal r m = (m', Done v) /\
    (nextLoc m <= nextLoc m')%positive /\
    (forall x, Smr v = Some x -> (nextLoc m <= x < nextLoc m')%positive).
Proof.
  unfold grpcc.unmarshal, grpcc.allocOpt, grpcc.allocMapRoot,
    grpcc.allocLogRoot. munfold.
  destruct (grpcc.wSmr r), (grpcc.wLogRoot r); simpl;
    eexists _, _; (split; [reflexivity|]); simpl;
    (split; [lia|]); intros x [= <-] || intros x [=]; lia.
Qed.

Lemma unmarshalAll_alloc (rs : list grpcc.GetEntryResponseWire) :
  forall m, exists m' vs,
    grpcc.unmarshalAll rs m = (m', Done vs) /\
    (nextLoc m <= nextLoc m')%positive /\
    increasing (nextLoc m) vs /\
    smrBelow (nextLoc m') vs.
Proof.
  induction rs as [|r rs IH]; intros m.
  - exists m, []. repeat split; [lia|constructor].
  - destruct (unmarshal_alloc r m) as (m1 & v & Hv & Hle1 & Hsmr).
    destruct (IH m1) as (m2 & vs & Hvs & Hle2 & Hinc & Hbelow).
    exists m2, (v :: vs). simpl. unfold bind. rewrite Hv, Hvs.
    split; [reflexivity|]. split; [lia|]. split.
    + simpl. destruct (Smr v) as [x|] eqn:Hx.
      * destruct (Hsmr x eq_refl). split; [lia|].
        eapply increasing_mono; [|exact Hinc]. lia.
      * eapply increasing_mono; [|exact Hinc]. lia.
    + constructor; [|done]. intros x Hx. destruct (Hsmr x Hx). lia.
Qed.

Lemma fetchPage_alloc c userID appID end_ st w w1 resp :
  grpcc.fetchPage c userID appID end_ st w = (w1, Done resp) ->
  (nextLoc (grpcc.mem w) <= nextLoc (grpcc.mem w1))%positive /\
  increasing (nextLoc (grpcc.mem w)) (grpcc.Values resp) /\
  smrBelow (nextLoc (grpcc.mem w1)) (grpcc.Values resp).
Proof.
  unfold grpcc.fetchPage, grpcc.emit, grpcc.liftEnv, grpcc.liftMem.
  munfold. simpl.
  destruct (grpcc.cli_ListEntryHistory _ _) as [e' [r0|err]]; simpl; [|done].
  destruct (unmarshalAll_alloc (grpcc.wValues r0) (grpcc.mem w))
    as (m' & vs & Hvs & Hle & Hinc & Hbelow).
  rewrite Hvs. intros [= <- <-]. simpl. done.
Qed.

(** The loop over the values of a page records exactly the change
    points, under fresh keys. *)
Lemma verifyValues_changes c userID appID vs :
  forall cur profs w w' r emitted lo hi,
    grpcc.verifyValues c userID appID vs cur profs w = (w', Done r) ->
    map_to_list profs ≡ₚ emitted ->
    keysBelow lo emitted ->
    increasing lo vs ->
    smrBelow hi vs ->
    (lo <= hi)%positive ->
    w' = w /\
    map_to_list r.2 ≡ₚ emitted ++ changePoints cur vs /\
    r.1 = lastProfile cur vs /\
    keysBelow hi (emitted ++ changePoints cur vs).
Proof.
  induction vs as [|v vs IH];
    intros cur profs w w' r emitted lo hi Hrun Hmap Hkeys Hinc Hbelow Hle.
  - simpl in Hrun. injection Hrun as <- <-. simpl. rewrite app_nil_r.
    repeat split; [done|]. by eapply keysBelow_mono.
  - simpl in Hrun. unfold bind in Hrun.
    destruct (grpcc.verify c appID userID v w) as [w1 [[]|e|]] eqn:Hver;
      try discriminate.
    destruct (verify_run _ _ _ _ _ _ _ Hver) as [-> Hsmr].
    destruct (Hsmr eq_refl) as [x Hx].
    simpl in Hinc. rewrite Hx in Hinc. destruct Hinc as [Hlo Hinc].
    apply Forall_cons in Hbelow as [Hxhi Hbelow].
    specialize (Hxhi x Hx).
    fold (profileOf v) in Hrun. unfold bytes_Equal in Hrun.
    simpl. destruct (decide (profileOf v = cur)) as [Heq|Hne].
    + rewrite bool_decide_eq_true_2 in Hrun by done.
      rewrite Heq. simpl.
      eapply (IH cur profs w w' r emitted (Pos.succ x) hi); eauto.
      * eapply keysBelow_mono; [|exact Hkeys]. lia.
      * lia.
    + rewrite bool_decide_eq_false_2 in Hrun by done.
      rewrite Hx in Hrun.
      assert (profs !! Some x = None) as Hfresh.
      { destruct (profs !! Some x) as [p|] eqn:Hp; [|done]. exfalso.
        apply elem_of_map_to_list in Hp. rewrite Hmap in Hp.
        unfold keysBelow in Hkeys. rewrite Forall_forall in Hkeys.
        destruct (Hkeys _ Hp) as (y & [= <-] & Hy). lia. }
      destruct (IH (profileOf v) (<[Some x := profileOf v]> profs) w w' r
                  (emitted ++ [(Some x, profileOf v)]) (Pos.succ x) hi)
        as (Hw & Hperm & Hlast & Hk); eauto.
      * rewrite map_to_list_insert by done. rewrite Hmap.
        apply Permutation_cons_append.
      * apply Forall_app. split.
        -- eapply keysBelow_mono; [|exact Hkeys]. lia.
        -- constructor; [|constructor]. exists x. split; [done|lia].
      * lia.
      * rewrite Hx, <- app_assoc in *. simpl in *. done.
Qed.

(** Over a whole run, the map of profiles holds the profiles recorded
    before it together with the change points of the values received. *)
Lemma historyRun_changes c userID appID end_ want n b st w vs st' w' :
  historyRun c userID appID end_ want n b st w vs st' w' ->
  forall emitted,
    map_to_list (grpcc.profiles st) ≡ₚ emitted ->
    keysBelow (nextLoc (grpcc.mem w)) emitted ->
    map_to_list (grpcc.profiles st')
      ≡ₚ emitted ++ changePoints (grpcc.currentProfile st) vs.
Proof.
  induction 1 as [st w Hge|st w resp w1 r w2 Hlt Hfetch Hver Hnext
                 |n b st w resp w1 r w2 vs st' w' Hlt Hfetch Hver Hnext _ IH];
    intros emitted Hmap Hkeys.
  - simpl. by rewrite app_nil_r.
  - destruct (fetchPage_alloc _ _ _ _ _ _ _ _ Hfetch) as (Hle & Hinc & Hbelow).
    destruct (verifyValues_changes _ _ _ _ _ _ _ _ _ _ _ _
                Hver Hmap Hkeys Hinc Hbelow Hle) as (_ & Hperm & _ & _).
    exact Hperm.
  - destruct (fetchPage_alloc _ _ _ _ _ _ _ _ Hfetch) as (Hle & Hinc & Hbelow).
    destruct (verifyValues_changes _ _ _ _ _ _ _ _ _ _ _ _
                Hver Hmap Hkeys Hinc Hbelow Hle) as (-> & Hperm & Hlast & Hk).
    rewrite changePoints_app, app_assoc, <- Hlast.
    apply IH; done.
Qed.

(** C10.  When [ListHistory] returns a map, the loop has made a run
    receiving the epochs [vs], and the map holds exactly one
    (SMR, profile) pair for every epoch whose profile differs from the
    profile of the epoch before it (from the nil profile for the first
    epoch): epochs that repeat the profile before them add nothing, and
    no two change points share a key. *)
Theorem ListHistory_compresses c (userID appID : string) (start_ end_ : Z)
    (fuel : nat) w w' (result : gmap (option loc) bytes) :
  grpcc.ListHistory fuel c userID appID start_ end_ w
    = (w', Done (Some result)) ->
  exists n b vs st',
    historyRun c userID appID end_
      (grpcc.add64 (grpcc.sub64 end_ start_) 1) n b (initState start_) w
      vs st' w' /\
    result = grpcc.profiles st' /\
    map_to_list result ≡ₚ changePoints [] vs /\
    size result = length (changePoints [] vs).
Proof.
  unfold grpcc.ListHistory. destruct (start_ <? 0); [done|].
  unfold bind. fold (initState start_).
  destruct (grpcc.historyLoop _ _ _ _ _ _ _ w) as [w1 [[st'|]| |]] eqn:Hloop;
    try done.
  destruct (_ <? _); [done|]. intros [= <- <-].
  destruct (historyLoop_run _ _ _ _ _ _ _ _ _ _ Hloop)
    as (n & b & vs & Hrun & _).
  pose proof (historyRun_changes _ _ _ _ _ _ _ _ _ _ _ _ Hrun []) as Hperm.
  simpl in Hperm. rewrite map_to_list_empty in Hperm.
  specialize (Hperm (reflexivity _) (Forall_nil_2 _)).
  exists n, b, vs, st'. repeat split; try done.
  by rewrite <- length_map_to_list, Hperm.
Qed.

End CompressionFacts.

Lemma ListHistory_compresses_witness :
  exists w' result,
    grpcc.ListHistory (D := demo.grpccDeps) 1 (demo.client 1) "alice" "app"
      0 3 demo.world0 = (w', Done (Some result)) /\
    size result = 2%nat /\
    exists n b vs st',
      historyRun (demo.client 1) "alice" "app" 3
        (grpcc.add64 (grpcc.sub64 3 0) 1) n b (initState 0) demo.world0
        vs st' w' /\
      result = grpcc.profiles st' /\
      map_to_list result ≡ₚ changePoints [] vs /\
      size result = length (changePoints [] vs).
Proof.
  eexists _, _. split; [vm_compute; reflexivity|].
  split; [vm_compute; reflexivity|].
  apply (ListHistory_compresses (D := demo.grpccDeps) (demo.client 1)
           "alice" "app" 0 3 1 demo.world0).
  vm_compute. reflexivity.
Defined.

(** * Properties of the monitor *)

Section MonitorClaims.
Context {D : monitor.Deps}.
Implicit Types (w : monitor.World) (pair : monitor.EpochPair).

Lemma nonEmpty_false {A} (l : list A) : monitor.nonEmpty l = false <-> l = [].
Proof.
  unfold monitor.nonEmpty. destruct l; simpl; split; try done.
Qed.

(** C9.  Take a pair whose mutations are fetched, and let [errs] be the
    outcome of [VerifyEpochMutations] on it.  The pair makes exactly one
    call [store.Set], at revision [B.smr.map_revision]:
    - when [errs] is not empty, with a nil SMR and [errs];
    - when [errs] is empty and countersigning gives [smr'], with [smr']
      and an empty error list.
    In both cases, once the store has accepted the result the loop goes on
    with the remaining pairs. *)
Theorem processPairs_stores_one_result
    pair (rest : list monitor.EpochPair) w e1 muts m1 errs e2 seen :
  monitor.mutCli_EpochMutations (monitor.B pair) (monitor.env w)
    = (e1, Ok muts) ->
  monitor.VerifyEpochMutations (monitor.A pair) (monitor.B pair) muts
    (monitor.mon w) = (m1, errs) ->
  monitor.time_Now e1 = (e2, seen) ->
  let revision := GetMapRevision (monitor.GetSmr (monitor.B pair)) in
  let stored (r : monitor.Result) (s' : monitor.Store) : monitor.World :=
    {| monitor.mon := m1; monitor.store := s'; monitor.env := e2;
       monitor.sets := monitor.sets w ++ [(revision, r)] |} in
  (errs <> [] ->
   forall s',
     let r := {| monitor.Smr := None; monitor.Seen := seen;
                 monitor.Errors := errs |} in
     monitor.store_Set revision r (monitor.store w) = (s', None) ->
     monitor.processPair pair w = (stored r s', Done tt) /\
     monitor.processPairs (pair :: rest) w
       = monitor.processPairs rest (stored r s')) /\
  (errs = [] ->
   forall smr' s',
     monitor.signMapRoot (monitor.GetSmr (monitor.B pair)) m1 = Ok smr' ->
     let r := {| monitor.Smr := smr'; monitor.Seen := seen;
                 monitor.Errors := [] |} in
     monitor.store_Set revision r (monitor.store w) = (s', None) ->
     monitor.processPair pair w = (stored r s', Done tt) /\
     monitor.processPairs (pair :: rest) w
       = monitor.processPairs rest (stored r s')).
Proof.
  intros Hfetch Hver Hnow revision stored.
  assert (forall r s',
            monitor.processPair pair w = (stored r s', Done tt) ->
            monitor.processPairs (pair :: rest) w
              = monitor.processPairs rest (stored r s')) as Hnext.
  { intros r s' Hp. simpl. unfold bind. by rewrite Hp. }
  split.
  - intros Hne s' r Hset.
    assert (monitor.processPair pair w = (stored r s', Done tt)) as Hp.
    { unfold monitor.processPair, monitor.liftEnv, monitor.liftMon,
        monitor.storeSet. munfold. rewrite Hfetch. simpl.
      rewrite Hver. simpl.
      destruct (monitor.nonEmpty errs) eqn:Hn;
        [|by apply nonEmpty_false in Hn].
      simpl. rewrite Hnow. simpl.
      fold revision. fold r. rewrite Hset. reflexivity. }
    split; [exact Hp|by apply Hnext].
  - intros -> smr' s' Hsign r Hset.
    assert (monitor.processPair pair w = (stored r s', Done tt)) as Hp.
    { unfold monitor.processPair, monitor.liftEnv, monitor.liftMon,
        monitor.storeSet. munfold. rewrite Hfetch. simpl.
      rewrite Hver. simpl. rewrite Hsign. simpl. rewrite Hnow. simpl.
      fold revision. fold r. rewrite Hset. reflexivity. }
    split; [exact Hp|by apply Hnext].
Qed.

(** When the mutations cannot be fetched, or countersigning fails, the
    loop stops with that error and nothing is stored for the pair. *)
Lemma processPair_aborts pair w w' err :
  monitor.processPair pair w = (w', Fail err) ->
  monitor.sets w' = monitor.sets w \/
  exists r,
    monitor.sets w' =
    monitor.sets w ++ [(GetMapRevision (monitor.GetSmr (monitor.B pair)), r)]
    /\ exists cause, err = ErrorfW "monitorstorage.Set(%v, _): %v" cause.
Proof.
  unfold monitor.processPair, monitor.liftEnv, monitor.liftMon,
    monitor.storeSet. munfold.
  destruct (monitor.mutCli_EpochMutations _ _) as [e1 [muts|e]]; simpl;
    [|intros [= <- <-]; by left].
  destruct (monitor.VerifyEpochMutations _ _ _ _) as [m1 errs]. simpl.
  destruct (monitor.nonEmpty errs); simpl.
  - destruct (monitor.time_Now e1) as [e2 seen]. simpl.
    destruct (monitor.store_Set _ _ _) as [s' [e|]]; [|done].
    intros [= <- <-]. right. simpl. eauto.
  - destruct (monitor.signMapRoot _ _) as [smr'|e]; simpl;
      [|intros [= <- <-]; by left].
    destruct (monitor.time_Now e1) as [e2 seen]. simpl.
    destruct (monitor.store_Set _ _ _) as [s' [e|]]; [|done].
    intros [= <- <-]. right. simpl. eauto.
Qed.

End MonitorClaims.

Lemma processPairs_stores_one_result_witness :
  monitor.sets
    (monitor.processPairs (D := demo.monitorDeps)
       [demo.badPair; demo.goodPair] demo.monitorWorld).1
  = [ (2, {| monitor.Smr := None; monitor.Seen := 100;
             monitor.Errors := [ErrExternal "bad epoch"] |});
      (3, {| monitor.Smr :=
               Some {| MapId := 2; MapRevision := 3; RootHash := [];
                       TimestampNanos := 0; Metadata := [];
                       SmrSignature := Some {| Signature := [Byte.x4d] |} |};
             monitor.Seen := 101; monitor.Errors := [] |}) ].
Proof.
  destruct (processPairs_stores_one_result (D := demo.monitorDeps)
              demo.badPair [demo.goodPair] demo.monitorWorld
              100 [] tt [ErrExternal "bad epoch"] 101 100
              eq_refl eq_refl eq_refl) as [Hfail _].
  destruct (Hfail ltac:(discriminate) _ eq_refl) as [_ Hnext].
  rewrite Hnext. vm_compute. reflexivity.
Defined.
